(** * prometheus-rancher-exporter: the poll-reconcile-map engine of gather.go

    A shallow embedding of [gather.go]: the endpoint URL rewrite
    ([setEndpoint]), the process-wide stack reference map ([storeStackRef],
    [retrieveStackRef]), the record fetcher ([getJSON]) and the classifier and
    mapper ([processMetrics]), followed by the properties the specification
    states about them. *)

From Stdlib Require Import ZArith Ascii.
From stdpp Require Import gmap strings list fin_maps.

Local Open Scope Z_scope.

(** ** Go strings

    A Go string is a sequence of bytes; [string] (a list of [ascii]) is the
    same data. The functions below are the parts of package [strings] that
    gather.go calls. *)
Module GoStrings.

Fixpoint take (n : nat) (s : string) : string :=
  match n, s with
  | S n', String c s' => String c (take n' s')
  | _, _ => EmptyString
  end.

Fixpoint drop (n : nat) (s : string) : string :=
  match n, s with
  | S n', String _ s' => drop n' s'
  | _, _ => s
  end.

(** The byte offset of the first instance of [substr] in [s]. *)
Fixpoint find (s substr : string) : option nat :=
  if String.prefix substr s then Some 0%nat
  else match s with
       | EmptyString => None
       | String _ s' => S <$> find s' substr
       end.

(** [strings.Index]: the offset of the first instance, or -1. *)
Definition Index (s substr : string) : Z :=
  match find s substr with
  | Some i => Z.of_nat i
  | None => -1
  end.

(** [strings.Contains] is [Index(s, substr) >= 0]. *)
Definition Contains (s substr : string) : bool := 0 <=? Index s substr.

(** [strings.Replace(s, old, new, 1)]: the library returns [s] when
    [old == new] or when [old] does not occur, and otherwise rebuilds the
    string around the first instance, found with [Index]. With an empty
    [old] the single replacement is made at offset 0. *)
Definition Replace1 (s old new : string) : string :=
  if String.eqb old new then s
  else
    let j := Index s old in
    if j <? 0 then s
    else take (Z.to_nat j) s
         +:+ new
         +:+ drop (Z.to_nat j + String.length old) s.

End GoStrings.

(** ** setEndpoint *)

Definition setEndpoint (rancherURL component : string) : string :=
  let endpoint := rancherURL +:+ "/" +:+ component +:+ "/" in
  GoStrings.Replace1 endpoint "v1" "v2-beta".

(** ** The stack reference map

    [stackRef] is a package-level [map[string]string]; it is threaded
    explicitly here. *)

Definition storeStackRef (stackRef : gmap string string)
    (stackID stackName : string) : gmap string string :=
  <[stackID := stackName]> stackRef.

(** The body of the [range] loop of [retrieveStackRef], over the entries in
    the order the runtime happens to visit them. *)
Fixpoint retrieveStackRef_range (entries : list (string * string))
    (stackID : string) : string :=
  match entries with
  | [] => "unknown"
  | (key, value) :: rest =>
      if String.eqb stackID "" then "unknown"
      else if String.eqb stackID key then value
      else retrieveStackRef_range rest stackID
  end.

(** [retrieveStackRef] is taken by the value it returns: the [log.Debugf]
    line the source writes when the id is found is not recorded. *)
Definition retrieveStackRef (stackRef : gmap string string)
    (stackID : string) : string :=
  retrieveStackRef_range (map_to_list stackRef) stackID.


(** ** Records of the API

    One element of [Data.Data]. The field [Type] of the source is [Type_]
    here, and the slice field [Data] of the struct [Data] is [Data_]. *)

Record DataItem := mkDataItem {
  HealthState : string;
  Name : string;
  State : string;
  System : bool;
  Scale : Z;
  HostName : string;
  ID : string;
  StackID : string;
  EnvID : string;
  BaseType : string;
  Type_ : string;
  AgentState : string
}.

Record Data := mkData { Data_ : list DataItem }.

(** A Go [error] value, by its message. *)
Definition error := string.

(** [strconv.FormatBool]. *)
Definition FormatBool (b : bool) : string := if b then "true" else "false".

(** ** What a run does to the outside

    Calls to the logger, to the instrumentation of package [measure] and to
    the three metric setters of the exporter are recorded, in order, as
    events. *)

Inductive LogFn :=
  log_Debug | log_Debugf | log_Info | log_Warnf | log_Error | log_Errorf.

Inductive LogArg :=
| AStr (s : string)
| AInt (n : Z)
| ABool (b : bool)
| AErr (e : error)
| AData (d : option Data).

Inductive Event :=
| Log (fn : LogFn) (args : list LogArg)
| HostMetrics (name state agentState : string)
| StackMetrics (name state healthState system : string)
| ServiceMetrics (name stackName state healthState : string) (scale : Z)
| CounterInc (pkg fnc : string)
| DurationObserve (pkg fnc : string)
| BodyClose.

(** The events that are calls to a metric setter. *)
Definition is_observation (ev : Event) : bool :=
  match ev with
  | HostMetrics _ _ _ | StackMetrics _ _ _ _ | ServiceMetrics _ _ _ _ _ => true
  | _ => false
  end.

Definition observations (t : list Event) : list Event :=
  List.filter is_observation t.

(** ** The exporter

    [checkMetric] and the setters [setHostMetrics], [setStackMetrics] and
    [setServiceMetrics] are declared in other files of the package. They are
    taken as the operations of an interface over the exporter's state [E]:
    each setter returns the state it leaves and the [error] it reports. *)

Class ExporterOps (E : Type) := {
  checkMetric : string → string → bool;
  setHostMetrics : E → string → string → string → E * option error;
  setStackMetrics : E → string → string → string → string → E * option error;
  setServiceMetrics :
    E → string → string → string → string → Z → E * option error
}.

(** The mutable state [processMetrics] works on: the package-level map
    [stackRef] and the receiver [e]. *)
Record World (E : Type) := mkWorld {
  stackRef : gmap string string;
  exporter : E
}.
Arguments mkWorld {E} _ _.
Arguments stackRef {E} _.
Arguments exporter {E} _.

Section Mapper.
Context {E : Type} `{ExporterOps E}.

(** State passing with an event log. *)
Definition M (A : Type) : Type := World E → A * World E * list Event.

#[global] Instance M_ret : MRet M := λ A a w, (a, w, []).

#[global] Instance M_bind : MBind M := λ A B k m w,
  let '(a, w1, t1) := m w in
  let '(b, w2, t2) := k a w1 in
  (b, w2, t1 ++ t2).

Definition emit (ev : Event) : M unit := λ w, (tt, w, [ev]).

Definition getStackRef : M (gmap string string) := λ w, (stackRef w, w, []).

Definition setStackRef (m : gmap string string) : M unit :=
  λ w, (tt, mkWorld m (exporter w), []).

(** Run a setter on the receiver, recording the call. *)
Definition callSetter (ev : Event) (f : E → E * option error)
  : M (option error) :=
  λ w, let '(e', err) := f (exporter w) in
       (err, mkWorld (stackRef w) e', [ev]).

(** The type the record is checked against: [BaseType], or [Type] when
    [BaseType] is empty. *)
Definition dataTypeOf (x : DataItem) : string :=
  if String.eqb (BaseType x) "" then Type_ x else BaseType x.

Definition hostsBranch (x : DataItem) : M unit :=
  let s := if negb (String.eqb (Name x) "") then Name x else HostName x in
  err ← callSetter (HostMetrics s (State x) (AgentState x))
          (λ e, setHostMetrics e s (State x) (AgentState x));
  match err with
  | Some err =>
      emit (Log log_Errorf [AStr "Error processing host metrics: %s"; AErr err]);;
      emit (Log log_Errorf [AStr "Attempt Failed to set %s, %s, [agent] %s ";
                            AStr (HostName x); AStr (State x);
                            AStr (AgentState x)])
  | None => mret tt
  end.

Definition stacksBranch (x : DataItem) : M unit :=
  m ← getStackRef;
  setStackRef (storeStackRef m (ID x) (Name x));;
  err ← callSetter
          (StackMetrics (Name x) (State x) (HealthState x)
             (FormatBool (System x)))
          (λ e, setStackMetrics e (Name x) (State x) (HealthState x)
                  (FormatBool (System x)));
  match err with
  | Some err =>
      emit (Log log_Errorf [AStr "Error processing stack metrics: %s"; AErr err]);;
      emit (Log log_Errorf [AStr "Attempt Failed to set %s, %s, %s, %t";
                            AStr (Name x); AStr (State x);
                            AStr (HealthState x); ABool (System x)])
  | None => mret tt
  end.

Definition servicesBranch (x : DataItem) : M unit :=
  m ← getStackRef;
  let stackName := retrieveStackRef m (StackID x) in
  (if String.eqb stackName "unknown"
   then emit (Log log_Warnf
                [AStr "Failed to obtain stack_name for %s from the API";
                 AStr (Name x)])
   else mret tt);;
  let call :=
    callSetter
      (ServiceMetrics (Name x) stackName (State x) (HealthState x) (Scale x))
      (λ e, setServiceMetrics e (Name x) stackName (State x) (HealthState x)
              (Scale x)) in
  err ← call;
  match err with
  | Some err =>
      emit (Log log_Errorf
              [AStr "Error processing service metrics: %s"; AErr err]);;
      emit (Log log_Errorf [AStr "Attempt Failed to set %s, %s, %s, %s, %d";
                            AStr (Name x); AStr stackName; AStr (State x);
                            AStr (HealthState x); AInt (Scale x)])
  | None => _ ← call; mret tt
  end.

(** One iteration of the [range] loop of [processMetrics]. A [continue] is
    the end of the iteration. *)
Definition processRecord (endpoint : string) (hideSys : bool) (x : DataItem)
  : M unit :=
  if hideSys && System x then mret tt
  else if negb (checkMetric endpoint (dataTypeOf x)) then mret tt
  else
    emit (Log log_Debug [AStr "Processing metrics for %s"; AStr endpoint]);;
    if String.eqb endpoint "hosts" then hostsBranch x
    else if String.eqb endpoint "stacks" then stacksBranch x
    else if String.eqb endpoint "services" then servicesBranch x
    else mret tt.

Fixpoint rangeData (endpoint : string) (hideSys : bool) (l : list DataItem)
  : M unit :=
  match l with
  | [] => mret tt
  | x :: rest => processRecord endpoint hideSys x;; rangeData endpoint hideSys rest
  end.

Definition processMetrics (data : Data) (endpoint : string) (hideSys : bool)
  : M (option error) :=
  rangeData endpoint hideSys (Data_ data);; mret None.

End Mapper.

(** ** The record fetcher

    The HTTP transport and the JSON decoder are outside the program; they are
    the operations of an interface. As in Go, [http.NewRequest] and
    [client.Do] return a pointer and an [error], either of which may be nil.
    [json_Decode body target] is [json.NewDecoder(body).Decode(target)]: it
    returns what [target] points to afterwards and the decoder's [error]. *)

Record Request := mkRequest {
  Method : string;
  URL : string;
  BasicAuth : option (string * string)
}.

Record Response := mkResponse {
  Status : string;
  Body : string
}.

Class Network := {
  http_NewRequest : string → string → option Request * option error;
  client_Do : Request → option Response * option error;
  json_Decode : string → option Data → option Data * option error
}.

(** A call either returns or panics (here: a nil pointer dereference). *)
Inductive Outcome (A : Type) :=
| Returned (a : A)
| Panicked (reason : string).
Arguments Returned {A} _.
Arguments Panicked {A} _.

Definition nilDereference : string :=
  "invalid memory address or nil pointer dereference".

Definition SetBasicAuth (req : Request) (username password : string) : Request :=
  mkRequest (Method req) (URL req) (Some (username, password)).

Section Fetcher.
Context `{Network}.

Definition getJSON (url accessKey secretKey : string) (target : option Data)
  : list Event * Outcome (option Data * option error) :=
  let t0 := [CounterInc "main" "getJSON";
             Log log_Info [AStr "Scraping: "; AStr url]] in
  let '(req, err) := http_NewRequest "GET" url in
  let t1 := t0 ++ match err with
                  | Some err =>
                      [Log log_Error
                         [AStr "Error Collecting JSON from API: "; AErr err]]
                  | None => []
                  end in
  match req with
  | None => (t1, Panicked nilDereference)
  | Some req =>
      let req := SetBasicAuth req accessKey secretKey in
      let '(resp, err) := client_Do req in
      let t2 := t1 ++ match err with
                      | Some err =>
                          [Log log_Error
                             [AStr "Error Collecting JSON from API: "; AErr err]]
                      | None => []
                      end in
      match resp with
      | None => (t2, Panicked nilDereference)
      | Some resp =>
          let t3 := t2 ++ if negb (GoStrings.Contains (Status resp) "200")
                          then [Log log_Error
                                  [AStr "Error returned from API: ";
                                   AStr (Status resp)]]
                          else [] in
          let '(target', respFormatted) := json_Decode (Body resp) target in
          (t3 ++ [DurationObserve "main" "getJSON"; BodyClose],
           Returned (target', respFormatted))
      end
  end.

Definition gatherData (rancherURL accessKey secretKey endpoint : string)
  : list Event * Outcome (option Data * option error) :=
  let url := setEndpoint rancherURL endpoint in
  let data := Some (mkData []) in
  match getJSON url accessKey secretKey data with
  | (t, Panicked reason) => (t, Panicked reason)
  | (t, Returned (_, Some err)) =>
      (t ++ [Log log_Error [AStr "Error getting JSON from endpoint ";
                            AStr endpoint]],
       Returned (None, Some err))
  | (t, Returned (data, None)) =>
      (t ++ [Log log_Debugf [AStr ("JSON Fetched for: " +:+ endpoint +:+ ": ");
                             AData data]],
       Returned (data, None))
  end.

End Fetcher.

(** ** Label sanitising

    [getSafeName] is the JavaScript function
    [name.replace(/[^a-zA-Z0-9_:]/g, '_')]. A JavaScript string is a
    sequence of UTF-16 code units, and a regular expression without the [u]
    flag matches one code unit at a time: every unit outside the class is
    replaced by the unit of the underscore. *)
Module JS.

Definition isSafeUnit (c : N) : bool :=
  ((97 <=? c) && (c <=? 122) || (65 <=? c) && (c <=? 90)
   || (48 <=? c) && (c <=? 57) || (c =? 95) || (c =? 58))%N.

Definition getSafeName (name : list N) : list N :=
  (λ c, if isSafeUnit c then c else 95%N) <$> name.

(** The code units of a string of ASCII characters. *)
Definition units (s : string) : list N :=
  Ascii.N_of_ascii <$> String.list_ascii_of_string s.

End JS.

(** ** Sample instances

    Concrete exporters and networks on which the statements below are
    exercised. *)

(** Modelled from the spec: [checkMetric], the category-compatibility
    predicate keyed by endpoint name, is declared outside gather.go. The
    endpoints are hosts, stacks and services, and the categories of their
    records are host, stack and service. *)
Definition checkMetric_spec (endpoint dataType : string) : bool :=
  if String.eqb endpoint "hosts" then String.eqb dataType "host"
  else if String.eqb endpoint "stacks" then String.eqb dataType "stack"
  else if String.eqb endpoint "services" then String.eqb dataType "service"
  else false.

(** An exporter that counts the observations it accepted and rejects an
    observation whose name is empty. *)
Definition countingSetter (e : nat) (name : string) : nat * option error :=
  if String.eqb name "" then (e, Some "empty name") else (S e, None).

#[export] Instance countingExporter : ExporterOps nat := {|
  checkMetric := checkMetric_spec;
  setHostMetrics := λ e name _ _, countingSetter e name;
  setStackMetrics := λ e name _ _ _, countingSetter e name;
  setServiceMetrics := λ e name _ _ _ _, countingSetter e name
|}.

(** A network that answers every request with [reply] and decodes every
    body to the empty batch. *)
Definition fixedNetwork (reply : option Response * option error) : Network := {|
  http_NewRequest := λ method url, (Some (mkRequest method url None), None);
  client_Do := λ _, reply;
  json_Decode := λ _ _, (Some (mkData []), None)
|}.

(** A network on which [http.NewRequest] rejects every URL. *)
Definition rejectingNetwork : Network := {|
  http_NewRequest := λ _ _, (None, Some "invalid URL");
  client_Do := λ _, (None, Some "unreachable");
  json_Decode := λ _ target, (target, None)
|}.

(** A network that answers 200 with a body the decoder rejects, leaving
    the target as it was. *)
Definition malformedNetwork : Network := {|
  http_NewRequest := λ method url, (Some (mkRequest method url None), None);
  client_Do := λ _, (Some (mkResponse "200 OK" "<html>"), None);
  json_Decode := λ _ target, (target, Some "invalid character")
|}.

Definition sampleStack : DataItem :=
  mkDataItem "healthy" "frontend" "active" false 0 "" "1st7" "" "1a5"
    "stack" "" "".

(** An exporter with room for one observation: a setter accepts while
    nothing has been accepted yet and rejects afterwards. *)
Definition cappedSetter (e : nat) : nat * option error :=
  match e with
  | O => (1%nat, None)
  | S _ => (e, Some "registry full")
  end.

Definition cappedExporter : ExporterOps nat := {|
  checkMetric := checkMetric_spec;
  setHostMetrics := λ e _ _ _, cappedSetter e;
  setStackMetrics := λ e _ _ _ _, cappedSetter e;
  setServiceMetrics := λ e _ _ _ _ _, cappedSetter e
|}.

(** A host that has a name and no host name. *)
Definition namedHost : DataItem :=
  mkDataItem "" "web-1" "active" false 0 "" "1h2" "" "1a5" "host" "" "active".

(** Sample records and a sample state. *)
Definition sampleService : DataItem :=
  mkDataItem "healthy" "web" "active" false 2 "" "1s5" "1st7" "1a5"
    "service" "" "".

Definition sampleHost : DataItem :=
  mkDataItem "" "" "active" false 0 "host-1" "1h1" "" "1a5" "host" "" "active".

Definition sampleUntyped : DataItem :=
  mkDataItem "" "orphan" "active" false 0 "" "1x1" "" "1a5" "" "" "".

Definition sampleWorld : World nat := mkWorld ∅ 0%nat.

Definition notFound : Response := mkResponse "404 Not Found" "{}".

(** ** Notions the statements are phrased in *)

(** [old] occurs in [s] at byte offset [i]. *)
Definition occurs_at (old s : string) (i : nat) : Prop :=
  ∃ p q, s = p +:+ old +:+ q ∧ String.length p = i.

(** [r] is [s] with only the first occurrence of [old] replaced by [new]:
    [s] itself when [old] does not occur, and otherwise [s] cut around the
    occurrence at the least offset. *)
Inductive FirstReplaced (old new s : string) : string → Prop :=
| FirstReplaced_absent :
    (∀ i, ¬ occurs_at old s i) → FirstReplaced old new s s
| FirstReplaced_first (p q : string) :
    s = p +:+ old +:+ q →
    (∀ i, occurs_at old s i → (String.length p ≤ i)%nat) →
    FirstReplaced old new s (p +:+ new +:+ q).

(** The parts of what a computation returns when run from [w]. *)
Definition resultOf {E A} (m : M A) (w : World E) : A := (m w).1.1.
Definition worldAfter {E A} (m : M A) (w : World E) : World E := (m w).1.2.
Definition eventsOf {E A} (m : M A) (w : World E) : list Event := (m w).2.

(** The record gets past the two [continue]s at the head of the loop body:
    it is not a suppressed system record, and its type matches the
    endpoint. *)
Definition dispatched `{ExporterOps E} (endpoint : string) (hideSys : bool)
    (x : DataItem) : bool :=
  negb (hideSys && System x) && checkMetric endpoint (dataTypeOf x).

(** The observation a dispatched record is first offered to the exporter
    as, given the content of the store. *)
Definition attempt (endpoint : string) (m : gmap string string) (x : DataItem)
  : list Event :=
  if String.eqb endpoint "hosts" then
    [HostMetrics (if negb (String.eqb (Name x) "") then Name x else HostName x)
       (State x) (AgentState x)]
  else if String.eqb endpoint "stacks" then
    [StackMetrics (Name x) (State x) (HealthState x) (FormatBool (System x))]
  else if String.eqb endpoint "services" then
    [ServiceMetrics (Name x) (retrieveStackRef m (StackID x)) (State x)
       (HealthState x) (Scale x)]
  else [].

(** A record with one of its two type attributes replaced. *)
Definition withType (t : string) (x : DataItem) : DataItem :=
  mkDataItem (HealthState x) (Name x) (State x) (System x) (Scale x)
    (HostName x) (ID x) (StackID x) (EnvID x) (BaseType x) t (AgentState x).

Definition withBaseType (t : string) (x : DataItem) : DataItem :=
  mkDataItem (HealthState x) (Name x) (State x) (System x) (Scale x)
    (HostName x) (ID x) (StackID x) (EnvID x) t (Type_ x) (AgentState x).

(** The records a run with system suppression keeps. *)
Definition notSystem (x : DataItem) : bool := negb (System x).

(** ** Facts about the string functions *)

Module GoStringsFacts.
Import GoStrings.

#[local] Arguments String.append !_ _ : simpl nomatch.

Lemma append_assoc (a b c : string) : (a +:+ b) +:+ c = a +:+ b +:+ c.
Proof. induction a as [|ch a IH]; simpl; [done | by rewrite IH]. Qed.

Lemma length_append (a b : string) :
  String.length (a +:+ b) = (String.length a + String.length b)%nat.
Proof. induction a as [|ch a IH]; simpl; [done | by rewrite IH]. Qed.

Lemma prefix_spec (p s : string) :
  String.prefix p s = true ↔ ∃ q, s = p +:+ q.
Proof.
  revert s. induction p as [|c p IH]; intros [|d s]; simpl.
  - split; [by exists "" | done].
  - split; [by exists (String d s) | done].
  - split; [done | intros [q Hq]; discriminate].
  - destruct (Ascii.ascii_dec c d) as [->|Hne].
    + rewrite IH. split; intros [q Hq]; exists q; [by rewrite Hq | by injection Hq].
    + split; [done | intros [q Hq]; injection Hq; congruence].
Qed.

Lemma take_drop_append (p q : string) :
  take (String.length p) (p +:+ q) = p ∧ drop (String.length p) (p +:+ q) = q.
Proof. induction p as [|c p [IH1 IH2]]; simpl; [by destruct q | by rewrite IH1]. Qed.

Lemma drop_add (n m : nat) (s : string) : drop (n + m) s = drop m (drop n s).
Proof.
  revert s. induction n as [|n IH]; intros s; simpl; [done |].
  destruct s as [|c s]; [by destruct m | apply IH].
Qed.

Lemma find_nil (substr : string) :
  find "" substr = if String.prefix substr "" then Some 0%nat else None.
Proof. reflexivity. Qed.

Lemma find_cons (c : ascii) (s substr : string) :
  find (String c s) substr =
  if String.prefix substr (String c s) then Some 0%nat else S <$> find s substr.
Proof. reflexivity. Qed.

(** [find] returns an offset at which [substr] occurs. *)
Lemma find_Some (s substr : string) (i : nat) :
  find s substr = Some i →
  s = take i s +:+ substr +:+ drop (i + String.length substr) s
  ∧ String.length (take i s) = i.
Proof.
  revert i. induction s as [|c s IH]; intros i.
  - rewrite find_nil. destruct (String.prefix substr "") eqn:Hp; [|done].
    intros [= <-]. apply prefix_spec in Hp as [q Hq].
    destruct substr; [done | discriminate].
  - rewrite find_cons. destruct (String.prefix substr (String c s)) eqn:Hp.
    + intros [= <-]. apply prefix_spec in Hp as [q Hq].
      split; [|done]. change (take 0 (String c s)) with "".
      change ("" +:+ substr +:+ drop (0 + String.length substr) (String c s))
        with (substr +:+ drop (String.length substr) (String c s)).
      rewrite Hq. f_equal. symmetry. apply take_drop_append.
    + destruct (find s substr) as [j|] eqn:Hf; [|done].
      intros [= <-]. destruct (IH j eq_refl) as [H1 H2]. simpl.
      split; [by rewrite <- H1 | by rewrite H2].
Qed.

(** No instance of [substr] starts before the offset [find] returns. *)
Lemma find_Some_least (s substr p q : string) (i : nat) :
  find s substr = Some i → s = p +:+ substr +:+ q → (i ≤ String.length p)%nat.
Proof.
  revert i p. induction s as [|c s IH]; intros i p.
  - rewrite find_nil.
    destruct (String.prefix substr ""); [intros [= <-]; lia | done].
  - rewrite find_cons.
    destruct (String.prefix substr (String c s)) eqn:Hp; [intros [= <-]; lia |].
    destruct (find s substr) as [j|] eqn:Hf; [|done].
    intros [= <-] Hs. destruct p as [|d p]; simpl in Hs.
    + assert (String.prefix substr (String c s) = true) as Hp'
        by (apply prefix_spec; by exists q).
      congruence.
    + injection Hs as _ Hs. specialize (IH j p eq_refl Hs). simpl. lia.
Qed.

Lemma find_None (s substr p q : string) :
  find s substr = None → s ≠ p +:+ substr +:+ q.
Proof.
  revert p. induction s as [|c s IH]; intros p.
  - rewrite find_nil. destruct (String.prefix substr "") eqn:Hp; [done |].
    intros _ Hs. destruct p; [|done]. simpl in Hs.
    assert (String.prefix substr "" = true) by (apply prefix_spec; by exists q).
    congruence.
  - rewrite find_cons.
    destruct (String.prefix substr (String c s)) eqn:Hp; [done |].
    destruct (find s substr) eqn:Hf; [done |].
    intros _ Hs. destruct p as [|d p]; simpl in Hs.
    + assert (String.prefix substr (String c s) = true)
        by (apply prefix_spec; by exists q).
      congruence.
    + injection Hs as _ Hs. by apply (IH p).
Qed.

End GoStringsFacts.

(** ** The endpoint URL *)

Section EndpointFacts.
Import GoStrings GoStringsFacts.

Lemma Replace1_first (s old new : string) :
  old ≠ new → FirstReplaced old new s (Replace1 s old new).
Proof.
  intros Hne. unfold Replace1, Index.
  destruct (String.eqb_spec old new) as [->|_]; [done |].
  destruct (find s old) as [i|] eqn:Hf.
  - replace (Z.of_nat i <? 0) with false by (symmetry; apply Z.ltb_ge; lia).
    rewrite Nat2Z.id. destruct (find_Some _ _ _ Hf) as [Hs Hlen].
    apply FirstReplaced_first; [exact Hs |].
    intros j (p & q & Hpq & <-). rewrite Hlen. by eapply find_Some_least.
  - change (-1 <? 0) with true. apply FirstReplaced_absent.
    intros j (p & q & Hpq & _). by eapply find_None.
Qed.

End EndpointFacts.

(** C4: for every base URL and category, [setEndpoint] returns
    base + "/" + category + "/" with only the first occurrence of "v1"
    replaced by "v2-beta"; for base "http://rancher.local/v1" and category
    "hosts" it returns "http://rancher.local/v2-beta/hosts/". *)
Theorem setEndpoint_replaces_first_v1 (rancherURL component : string) :
  FirstReplaced "v1" "v2-beta" (rancherURL +:+ "/" +:+ component +:+ "/")
    (setEndpoint rancherURL component)
  ∧ setEndpoint "http://rancher.local/v1" "hosts"
    = "http://rancher.local/v2-beta/hosts/".
Proof.
  split; [|reflexivity].
  unfold setEndpoint. by apply Replace1_first.
Qed.

Example setEndpoint_second_v1_kept :
  setEndpoint "http://v1.local/v1" "hosts" = "http://v2-beta.local/v1/hosts/".
Proof. reflexivity. Qed.

Example setEndpoint_without_v1 :
  setEndpoint "http://rancher.local/v3" "stacks" = "http://rancher.local/v3/stacks/".
Proof. reflexivity. Qed.

(** ** The stack reference map *)

Section StackRefFacts.
Implicit Types (entries : list (string * string)) (m : gmap string string).

Lemma retrieveStackRef_range_empty_id entries :
  retrieveStackRef_range entries "" = "unknown".
Proof. by destruct entries as [|[k v] rest]. Qed.

Lemma retrieveStackRef_range_absent entries (stackID : string) :
  stackID ∉ entries.*1 → retrieveStackRef_range entries stackID = "unknown".
Proof.
  induction entries as [|[k v] rest IH]; [done |]. simpl.
  intros Hnin. apply not_elem_of_cons in Hnin as [Hne Hnin].
  destruct (String.eqb_spec stackID ""); [done |].
  destruct (String.eqb_spec stackID k); [done | by apply IH].
Qed.

Lemma retrieveStackRef_range_present entries (stackID value : string) :
  stackID ≠ "" → NoDup entries.*1 → (stackID, value) ∈ entries →
  retrieveStackRef_range entries stackID = value.
Proof.
  intros Hid. induction entries as [|[k v] rest IH]; simpl.
  - intros _ Hin. by apply elem_of_nil in Hin.
  - intros [Hk Hnd]%NoDup_cons Hin.
    destruct (String.eqb_spec stackID ""); [done |].
    apply elem_of_cons in Hin as [[= -> ->]|Hin].
    + by rewrite String.eqb_refl.
    + destruct (String.eqb_spec stackID k) as [->|_]; [|by apply IH].
      exfalso. apply Hk. apply list_elem_of_fmap. by exists (k, value).
Qed.

(** What [retrieveStackRef] returns, by the content of the map. *)
Lemma retrieveStackRef_lookup m (stackID : string) :
  retrieveStackRef m stackID =
  if decide (stackID = "") then "unknown" else default "unknown" (m !! stackID).
Proof.
  unfold retrieveStackRef. case_decide as Hid.
  - subst. apply retrieveStackRef_range_empty_id.
  - destruct (m !! stackID) as [v|] eqn:Hm; simpl.
    + apply retrieveStackRef_range_present;
        [done | apply NoDup_fst_map_to_list | by apply elem_of_map_to_list].
    + apply retrieveStackRef_range_absent.
      intros ([k v] & Hk & Hin)%list_elem_of_fmap. simpl in Hk. subst k.
      apply elem_of_map_to_list in Hin. congruence.
Qed.

(** X1: the order in which the runtime visits the entries does not matter. *)
Lemma retrieveStackRef_any_order m entries (stackID : string) :
  entries ≡ₚ map_to_list m →
  retrieveStackRef_range entries stackID = retrieveStackRef m stackID.
Proof.
  intros Hperm. rewrite retrieveStackRef_lookup. case_decide as Hid.
  - subst. apply retrieveStackRef_range_empty_id.
  - destruct (m !! stackID) as [v|] eqn:Hm; simpl.
    + apply retrieveStackRef_range_present; [done | |].
      * rewrite Hperm. apply NoDup_fst_map_to_list.
      * rewrite Hperm. by apply elem_of_map_to_list.
    + apply retrieveStackRef_range_absent. rewrite Hperm.
      intros ([k v] & Hk & Hin)%list_elem_of_fmap. simpl in Hk. subst k.
      apply elem_of_map_to_list in Hin. congruence.
Qed.

Lemma retrieve_after_store m (stackID stackName : string) :
  stackID ≠ "" →
  retrieveStackRef (storeStackRef m stackID stackName) stackID = stackName.
Proof.
  intros Hid. rewrite retrieveStackRef_lookup. unfold storeStackRef.
  rewrite decide_False by done. by rewrite lookup_insert_eq.
Qed.

Lemma retrieve_after_other_store m (id stackID stackName : string) :
  id ≠ stackID →
  retrieveStackRef (storeStackRef m id stackName) stackID
  = retrieveStackRef m stackID.
Proof.
  intros Hne. rewrite !retrieveStackRef_lookup. unfold storeStackRef.
  by rewrite lookup_insert_ne.
Qed.

End StackRefFacts.

(** C3: in every state of the store, storing ("s1", "frontend") and then
    retrieving "s1" returns "frontend"; retrieving the empty id or an absent
    id returns "unknown"; and a second store for "s1" overwrites the
    first. *)
Theorem reference_store_round_trip (m : gmap string string) :
  retrieveStackRef (storeStackRef m "s1" "frontend") "s1" = "frontend"
  ∧ retrieveStackRef m "" = "unknown"
  ∧ (∀ stackID, m !! stackID = None → retrieveStackRef m stackID = "unknown")
  ∧ retrieveStackRef
      (storeStackRef (storeStackRef m "s1" "frontend") "s1" "frontend-v2") "s1"
    = "frontend-v2".
Proof.
  repeat split.
  - by apply retrieve_after_store.
  - by rewrite retrieveStackRef_lookup.
  - intros stackID Hm. rewrite retrieveStackRef_lookup, Hm. by case_decide.
  - by apply retrieve_after_store.
Qed.

Example retrieve_empty_id_even_when_stored :
  retrieveStackRef (storeStackRef ∅ "" "orphan") "" = "unknown".
Proof. by rewrite retrieveStackRef_lookup. Qed.

(** ** The classifier and mapper *)

Section MapperFacts.
Context {E : Type} `{ExporterOps E}.
Implicit Types (w : World E) (x : DataItem) (l : list DataItem).

Ltac run :=
  unfold resultOf, worldAfter, eventsOf, processMetrics, hostsBranch,
    stacksBranch, servicesBranch, callSetter, emit, getStackRef, setStackRef,
    mbind, M_bind, mret, M_ret; simpl.

Ltac mem :=
  unfold attempt; simpl;
  rewrite ?elem_of_app, ?elem_of_cons, ?elem_of_nil; intuition congruence.

Lemma M_eta {A} (r : A * World E * list Event) : (r.1.1, r.1.2, r.2) = r.
Proof. by destruct r as [[a w] t]. Qed.

Lemma rangeData_nil (endpoint : string) hideSys w :
  rangeData endpoint hideSys [] w = (tt, w, []).
Proof. reflexivity. Qed.

Lemma rangeData_cons (endpoint : string) hideSys x l w :
  rangeData endpoint hideSys (x :: l) w =
  (tt,
   worldAfter (rangeData endpoint hideSys l)
     (worldAfter (processRecord endpoint hideSys x) w),
   eventsOf (processRecord endpoint hideSys x) w
   ++ eventsOf (rangeData endpoint hideSys l)
        (worldAfter (processRecord endpoint hideSys x) w)).
Proof.
  simpl. run. destruct (processRecord endpoint hideSys x w) as [[[] w1] t1].
  simpl. by destruct (rangeData endpoint hideSys l w1) as [[[] w2] t2].
Qed.

Lemma worldAfter_cons (endpoint : string) hideSys x l w :
  worldAfter (rangeData endpoint hideSys (x :: l)) w =
  worldAfter (rangeData endpoint hideSys l)
    (worldAfter (processRecord endpoint hideSys x) w).
Proof. unfold worldAfter at 1. by rewrite rangeData_cons. Qed.

Lemma eventsOf_cons (endpoint : string) hideSys x l w :
  eventsOf (rangeData endpoint hideSys (x :: l)) w =
  eventsOf (processRecord endpoint hideSys x) w
  ++ eventsOf (rangeData endpoint hideSys l)
       (worldAfter (processRecord endpoint hideSys x) w).
Proof. unfold eventsOf at 1. by rewrite rangeData_cons. Qed.

Lemma worldAfter_app (endpoint : string) hideSys l1 l2 w :
  worldAfter (rangeData endpoint hideSys (l1 ++ l2)) w =
  worldAfter (rangeData endpoint hideSys l2)
    (worldAfter (rangeData endpoint hideSys l1) w).
Proof.
  revert w. induction l1 as [|x l1 IH]; intros w; [done |].
  rewrite <- app_comm_cons, !worldAfter_cons. apply IH.
Qed.

Lemma eventsOf_app (endpoint : string) hideSys l1 l2 w :
  eventsOf (rangeData endpoint hideSys (l1 ++ l2)) w =
  eventsOf (rangeData endpoint hideSys l1) w
  ++ eventsOf (rangeData endpoint hideSys l2)
       (worldAfter (rangeData endpoint hideSys l1) w).
Proof.
  revert w. induction l1 as [|x l1 IH]; intros w; [done |].
  rewrite <- app_comm_cons, !eventsOf_cons, worldAfter_cons, IH.
  by rewrite (assoc_L (++)).
Qed.

Lemma processMetrics_run data (endpoint : string) hideSys w :
  processMetrics data endpoint hideSys w =
  (None, worldAfter (rangeData endpoint hideSys (Data_ data)) w,
   eventsOf (rangeData endpoint hideSys (Data_ data)) w).
Proof.
  run. destruct (rangeData endpoint hideSys (Data_ data) w) as [[[] w1] t1].
  simpl. by rewrite app_nil_r.
Qed.

(** A record that is not dispatched leaves no trace. *)
Lemma processRecord_not_dispatched (endpoint : string) hideSys x w :
  dispatched endpoint hideSys x = false →
  processRecord endpoint hideSys x w = (tt, w, []).
Proof.
  unfold dispatched, processRecord. intros Hd.
  destruct (hideSys && System x); [done |]. simpl in Hd. by rewrite Hd.
Qed.

Lemma processRecord_dispatched (endpoint : string) hideSys x w :
  dispatched endpoint hideSys x = true →
  processRecord endpoint hideSys x w =
  (emit (Log log_Debug [AStr "Processing metrics for %s"; AStr endpoint]);;
   if String.eqb endpoint "hosts" then hostsBranch x
   else if String.eqb endpoint "stacks" then stacksBranch x
   else if String.eqb endpoint "services" then servicesBranch x
   else mret tt) w.
Proof.
  unfold dispatched, processRecord. intros Hd.
  destruct (hideSys && System x); [done |]. simpl in Hd. by rewrite Hd.
Qed.

(** What each branch of the dispatch does, by the answer of the setter. *)

Lemma hostsBranch_run x w :
  hostsBranch x w =
  let s := if negb (String.eqb (Name x) "") then Name x else HostName x in
  let r := setHostMetrics (exporter w) s (State x) (AgentState x) in
  (tt, mkWorld (stackRef w) r.1,
   HostMetrics s (State x) (AgentState x)
   :: match r.2 with
      | Some err =>
          [Log log_Errorf [AStr "Error processing host metrics: %s"; AErr err];
           Log log_Errorf [AStr "Attempt Failed to set %s, %s, [agent] %s ";
                           AStr (HostName x); AStr (State x);
                           AStr (AgentState x)]]
      | None => []
      end).
Proof.
  run. by destruct (setHostMetrics _ _ _ _) as [e' [err|]].
Qed.

Lemma stacksBranch_run x w :
  stacksBranch x w =
  let r := setStackMetrics (exporter w) (Name x) (State x) (HealthState x)
             (FormatBool (System x)) in
  (tt, mkWorld (storeStackRef (stackRef w) (ID x) (Name x)) r.1,
   StackMetrics (Name x) (State x) (HealthState x) (FormatBool (System x))
   :: match r.2 with
      | Some err =>
          [Log log_Errorf [AStr "Error processing stack metrics: %s"; AErr err];
           Log log_Errorf [AStr "Attempt Failed to set %s, %s, %s, %t";
                           AStr (Name x); AStr (State x);
                           AStr (HealthState x); ABool (System x)]]
      | None => []
      end).
Proof.
  run. by destruct (setStackMetrics _ _ _ _ _) as [e' [err|]].
Qed.

Lemma servicesBranch_run x w :
  servicesBranch x w =
  let stackName := retrieveStackRef (stackRef w) (StackID x) in
  let call := ServiceMetrics (Name x) stackName (State x) (HealthState x)
                (Scale x) in
  let r := setServiceMetrics (exporter w) (Name x) stackName (State x)
             (HealthState x) (Scale x) in
  (tt,
   mkWorld (stackRef w)
     match r.2 with
     | Some _ => r.1
     | None => (setServiceMetrics r.1 (Name x) stackName (State x)
                  (HealthState x) (Scale x)).1
     end,
   (if String.eqb stackName "unknown"
    then [Log log_Warnf [AStr "Failed to obtain stack_name for %s from the API";
                         AStr (Name x)]]
    else [])
   ++ call
      :: match r.2 with
         | Some err =>
             [Log log_Errorf
                [AStr "Error processing service metrics: %s"; AErr err];
              Log log_Errorf [AStr "Attempt Failed to set %s, %s, %s, %s, %d";
                              AStr (Name x); AStr stackName; AStr (State x);
                              AStr (HealthState x); AInt (Scale x)]]
         | None => [call]
         end).
Proof.
  run. destruct (String.eqb _ "unknown"); simpl;
    destruct (setServiceMetrics (exporter w) _ _ _ _ _) as [e' [err|]]; simpl;
    try done;
    by destruct (setServiceMetrics e' _ _ _ _ _) as [e'' err'].
Qed.

Lemma processRecord_hosts hideSys x w :
  dispatched "hosts" hideSys x = true →
  processRecord "hosts" hideSys x w =
  (tt, worldAfter (hostsBranch x) w,
   Log log_Debug [AStr "Processing metrics for %s"; AStr "hosts"]
   :: eventsOf (hostsBranch x) w).
Proof.
  intros Hd. rewrite processRecord_dispatched by done.
  unfold worldAfter, eventsOf, mbind, M_bind, emit. simpl.
  by destruct (hostsBranch x w) as [[[] w1] t1].
Qed.

Lemma processRecord_stacks hideSys x w :
  dispatched "stacks" hideSys x = true →
  processRecord "stacks" hideSys x w =
  (tt, worldAfter (stacksBranch x) w,
   Log log_Debug [AStr "Processing metrics for %s"; AStr "stacks"]
   :: eventsOf (stacksBranch x) w).
Proof.
  intros Hd. rewrite processRecord_dispatched by done.
  unfold worldAfter, eventsOf, mbind, M_bind, emit. simpl.
  by destruct (stacksBranch x w) as [[[] w1] t1].
Qed.

Lemma processRecord_services hideSys x w :
  dispatched "services" hideSys x = true →
  processRecord "services" hideSys x w =
  (tt, worldAfter (servicesBranch x) w,
   Log log_Debug [AStr "Processing metrics for %s"; AStr "services"]
   :: eventsOf (servicesBranch x) w).
Proof.
  intros Hd. rewrite processRecord_dispatched by done.
  unfold worldAfter, eventsOf, mbind, M_bind, emit. simpl.
  by destruct (servicesBranch x w) as [[[] w1] t1].
Qed.

Lemma processRecord_other (endpoint : string) hideSys x w :
  endpoint ≠ "hosts" → endpoint ≠ "stacks" → endpoint ≠ "services" →
  dispatched endpoint hideSys x = true →
  processRecord endpoint hideSys x w =
  (tt, w, [Log log_Debug [AStr "Processing metrics for %s"; AStr endpoint]]).
Proof.
  intros H1 H2 H3 Hd. rewrite processRecord_dispatched by done.
  apply String.eqb_neq in H1, H2, H3. by rewrite H1, H2, H3.
Qed.

Lemma rangeData_triple (endpoint : string) hideSys l w :
  rangeData endpoint hideSys l w =
  (tt, worldAfter (rangeData endpoint hideSys l) w,
   eventsOf (rangeData endpoint hideSys l) w).
Proof.
  unfold worldAfter, eventsOf.
  by destruct (rangeData endpoint hideSys l w) as [[[] w1] t1].
Qed.

(** A record whose iteration does nothing can be dropped from the batch. *)
Lemma rangeData_skip (endpoint : string) hideSys pre x post w :
  (∀ w', processRecord endpoint hideSys x w' = (tt, w', [])) →
  rangeData endpoint hideSys (pre ++ x :: post) w
  = rangeData endpoint hideSys (pre ++ post) w.
Proof.
  intros Hskip.
  rewrite (rangeData_triple _ _ (pre ++ x :: post)),
    (rangeData_triple _ _ (pre ++ post)).
  assert (∀ w', worldAfter (processRecord endpoint hideSys x) w' = w') as Hw
    by (intros w'; unfold worldAfter; by rewrite Hskip).
  assert (∀ w', eventsOf (processRecord endpoint hideSys x) w' = []) as Ht
    by (intros w'; unfold eventsOf; by rewrite Hskip).
  rewrite !worldAfter_app, !eventsOf_app, worldAfter_cons, eventsOf_cons.
  by rewrite Hw, Ht.
Qed.

Lemma dataTypeOf_primary x : BaseType x ≠ "" → dataTypeOf x = BaseType x.
Proof. unfold dataTypeOf. by intros ->%String.eqb_neq. Qed.

Lemma dataTypeOf_fallback x : BaseType x = "" → dataTypeOf x = Type_ x.
Proof. unfold dataTypeOf. by intros ->. Qed.

(** The store is written by the stacks branch only. *)
Lemma stackRef_processRecord (endpoint : string) hideSys x w :
  endpoint ≠ "stacks" →
  stackRef (worldAfter (processRecord endpoint hideSys x) w) = stackRef w.
Proof.
  intros Hne. destruct (dispatched endpoint hideSys x) eqn:Hd.
  - destruct (String.eqb_spec endpoint "hosts") as [->|Hh].
    { unfold worldAfter. rewrite processRecord_hosts by done. simpl.
      unfold worldAfter. by rewrite hostsBranch_run. }
    destruct (String.eqb_spec endpoint "services") as [->|Hs].
    { unfold worldAfter. rewrite processRecord_services by done. simpl.
      unfold worldAfter. by rewrite servicesBranch_run. }
    unfold worldAfter. by rewrite processRecord_other.
  - unfold worldAfter. by rewrite processRecord_not_dispatched.
Qed.

Lemma stackRef_rangeData (endpoint : string) hideSys l w :
  endpoint ≠ "stacks" →
  stackRef (worldAfter (rangeData endpoint hideSys l) w) = stackRef w.
Proof.
  intros Hne. revert w. induction l as [|x l IH]; intros w; [done |].
  rewrite worldAfter_cons, IH. by apply stackRef_processRecord.
Qed.

Lemma attempt_store_irrelevant (endpoint : string) (m m' : gmap string string) x :
  endpoint ≠ "services" → attempt endpoint m x = attempt endpoint m' x.
Proof.
  intros Hne%String.eqb_neq. unfold attempt. by rewrite Hne.
Qed.

Lemma attempt_after_record (endpoint : string) hideSys x y w :
  attempt endpoint
    (stackRef (worldAfter (processRecord endpoint hideSys x) w)) y
  = attempt endpoint (stackRef w) y.
Proof.
  destruct (String.eqb_spec endpoint "services") as [->|Hne].
  - by rewrite stackRef_processRecord.
  - by apply attempt_store_irrelevant.
Qed.

Lemma attempt_after_range (endpoint : string) hideSys l y w :
  attempt endpoint (stackRef (worldAfter (rangeData endpoint hideSys l) w)) y
  = attempt endpoint (stackRef w) y.
Proof.
  destruct (String.eqb_spec endpoint "services") as [->|Hne].
  - by rewrite stackRef_rangeData.
  - by apply attempt_store_irrelevant.
Qed.

Lemma observations_app (t1 t2 : list Event) :
  observations (t1 ++ t2) = observations t1 ++ observations t2.
Proof. apply List.filter_app. Qed.

(** The observations of one iteration are, as a set, the first attempt of
    a dispatched record, whatever the exporter answers. *)
Lemma observations_processRecord (endpoint : string) hideSys x w (c : Event) :
  c ∈ observations (eventsOf (processRecord endpoint hideSys x) w)
  ↔ dispatched endpoint hideSys x = true ∧ c ∈ attempt endpoint (stackRef w) x.
Proof.
  destruct (dispatched endpoint hideSys x) eqn:Hd.
  - destruct (String.eqb_spec endpoint "hosts") as [->|Hh].
    { unfold eventsOf. rewrite processRecord_hosts by done. simpl.
      unfold eventsOf. rewrite hostsBranch_run. simpl.
      destruct (setHostMetrics _ _ _ _).2; simpl; mem. }
    destruct (String.eqb_spec endpoint "stacks") as [->|Hst].
    { unfold eventsOf. rewrite processRecord_stacks by done. simpl.
      unfold eventsOf. rewrite stacksBranch_run. simpl.
      destruct (setStackMetrics _ _ _ _ _).2; simpl; mem. }
    destruct (String.eqb_spec endpoint "services") as [->|Hs].
    { unfold eventsOf. rewrite processRecord_services by done. simpl.
      unfold eventsOf. rewrite servicesBranch_run. simpl.
      rewrite observations_app.
      destruct (String.eqb _ "unknown"); simpl;
        destruct (setServiceMetrics _ _ _ _ _ _).2; simpl;
        unfold attempt; simpl; mem. }
    unfold eventsOf. rewrite processRecord_other by done. simpl.
    unfold attempt. apply String.eqb_neq in Hh, Hst, Hs.
    rewrite Hh, Hst, Hs. mem.
  - unfold eventsOf. rewrite processRecord_not_dispatched by done. simpl.
    mem.
Qed.

Lemma observations_rangeData (endpoint : string) hideSys l w (c : Event) :
  c ∈ observations (eventsOf (rangeData endpoint hideSys l) w)
  ↔ ∃ x, x ∈ l ∧ dispatched endpoint hideSys x = true
         ∧ c ∈ attempt endpoint (stackRef w) x.
Proof.
  revert w. induction l as [|x l IH]; intros w.
  - simpl. rewrite elem_of_nil. split; [done |].
    intros (x & Hx & _). by apply elem_of_nil in Hx.
  - rewrite eventsOf_cons, observations_app, elem_of_app.
    rewrite observations_processRecord, IH. split.
    + intros [[Hd Hc]|(y & Hy & Hd & Hc)].
      * exists x. split; [apply elem_of_cons; by left | done].
      * exists y. rewrite attempt_after_record in Hc.
        split; [apply elem_of_cons; by right | done].
    + intros (y & [->|Hy]%elem_of_cons & Hd & Hc); [by left |].
      right. exists y. by rewrite attempt_after_record.
Qed.

Lemma observations_subset (t : list Event) (c : Event) :
  c ∈ observations t → c ∈ t.
Proof.
  unfold observations. rewrite !list_elem_of_In, List.filter_In. tauto.
Qed.

Lemma eventsOf_processMetrics data (endpoint : string) hideSys w :
  eventsOf (processMetrics data endpoint hideSys) w
  = eventsOf (rangeData endpoint hideSys (Data_ data)) w.
Proof. unfold eventsOf at 1. by rewrite processMetrics_run. Qed.

Lemma worldAfter_processMetrics data (endpoint : string) hideSys w :
  worldAfter (processMetrics data endpoint hideSys) w
  = worldAfter (rangeData endpoint hideSys (Data_ data)) w.
Proof. unfold worldAfter at 1. by rewrite processMetrics_run. Qed.

Lemma processMetrics_skip (endpoint : string) hideSys pre x post w :
  (∀ w', processRecord endpoint hideSys x w' = (tt, w', [])) →
  processMetrics (mkData (pre ++ x :: post)) endpoint hideSys w
  = processMetrics (mkData (pre ++ post)) endpoint hideSys w.
Proof.
  intros Hskip. rewrite !processMetrics_run. simpl.
  unfold worldAfter, eventsOf. by rewrite rangeData_skip.
Qed.

(** With suppression on, the loop does what it does, with suppression off,
    on the batch without its system records. *)
Lemma rangeData_suppress (endpoint : string) l w :
  rangeData endpoint true l w
  = rangeData endpoint false (List.filter notSystem l) w.
Proof.
  revert w. induction l as [|x l IH]; intros w; [done |].
  destruct (System x) eqn:Hsys.
  - assert (List.filter notSystem (x :: l) = List.filter notSystem l) as ->
      by (simpl; unfold notSystem; by rewrite Hsys).
    assert (processRecord endpoint true x w = (tt, w, [])) as Hx.
    { apply processRecord_not_dispatched. unfold dispatched. by rewrite Hsys. }
    rewrite rangeData_cons, <- IH.
    unfold worldAfter at 2, eventsOf at 1, worldAfter at 2. rewrite Hx.
    symmetry. apply rangeData_triple.
  - assert (List.filter notSystem (x :: l) = x :: List.filter notSystem l) as ->
      by (simpl; unfold notSystem; by rewrite Hsys).
    assert (processRecord endpoint true x w = processRecord endpoint false x w)
      as Hx by (unfold processRecord; by rewrite Hsys).
    rewrite !rangeData_cons. unfold worldAfter, eventsOf. by rewrite Hx, !IH.
Qed.

(** C5: the type a record is checked against is the primary attribute
    [BaseType] whenever that is non-empty (the fallback [Type] then plays
    no part), and the fallback only when the primary is empty; where the
    empty category matches no endpoint, a record with both attributes empty
    is skipped: it leaves no trace in the batch. *)
Theorem category_fallback (endpoint : string) hideSys pre x post w :
  checkMetric endpoint "" = false →
  (BaseType x ≠ "" →
     dataTypeOf x = BaseType x
     ∧ ∀ t, processRecord endpoint hideSys (withType t x) w
            = processRecord endpoint hideSys x w)
  ∧ (BaseType x = "" →
     dataTypeOf x = Type_ x
     ∧ processRecord endpoint hideSys (withBaseType (Type_ x) x) w
       = processRecord endpoint hideSys x w)
  ∧ (BaseType x = "" → Type_ x = "" →
     processRecord endpoint hideSys x w = (tt, w, [])
     ∧ processMetrics (mkData (pre ++ x :: post)) endpoint hideSys w
       = processMetrics (mkData (pre ++ post)) endpoint hideSys w).
Proof.
  intros Hempty. repeat split.
  - by apply dataTypeOf_primary.
  - intros t. destruct x as [hs n st sys sc hn i sid eid bt ty ag].
    simpl in *. unfold processRecord, dataTypeOf. simpl.
    apply String.eqb_neq in H0. by rewrite H0.
  - by apply dataTypeOf_fallback.
  - destruct x as [hs n st sys sc hn i sid eid bt ty ag].
    simpl in *. subst bt. unfold processRecord, dataTypeOf. simpl.
    by destruct (String.eqb ty "") eqn:Hty;
      [apply String.eqb_eq in Hty; subst ty |].
  - apply processRecord_not_dispatched. unfold dispatched.
    rewrite (dataTypeOf_fallback x) by done. rewrite H1, Hempty.
    apply andb_false_r.
  - apply processMetrics_skip. intros w'.
    apply processRecord_not_dispatched. unfold dispatched.
    rewrite (dataTypeOf_fallback x) by done. rewrite H1, Hempty.
    apply andb_false_r.
Qed.

(** C6: with the suppress-system flag set, [processMetrics] does exactly
    what it does without the flag on the batch from which the records with
    the system flag have been removed, kept in their order: same result,
    same store and exporter, same events. Running the classification a
    second time on the same batch with the same flag offers the exporter the
    same set of observations. *)
Theorem system_record_filtering data (endpoint : string) w :
  processMetrics data endpoint true w
  = processMetrics (mkData (List.filter notSystem (Data_ data))) endpoint false w
  ∧ ∀ hideSys c,
      c ∈ observations (eventsOf (processMetrics data endpoint hideSys) w)
      ↔ c ∈ observations
              (eventsOf (processMetrics data endpoint hideSys)
                 (worldAfter (processMetrics data endpoint hideSys) w)).
Proof.
  split.
  - rewrite !processMetrics_run. simpl.
    unfold worldAfter, eventsOf. by rewrite rangeData_suppress.
  - intros hideSys c.
    rewrite !eventsOf_processMetrics, worldAfter_processMetrics.
    rewrite !observations_rangeData.
    split; intros (x & Hx & Hd & Hc); exists x; repeat split; try done.
    + by rewrite attempt_after_range.
    + by rewrite attempt_after_range in Hc.
Qed.

(** The events of the iteration for a record of the batch are part of the
    events of the batch. *)
Lemma eventsOf_batch_split data (endpoint : string) hideSys pre x post w :
  Data_ data = pre ++ x :: post →
  eventsOf (processMetrics data endpoint hideSys) w
  = eventsOf (rangeData endpoint hideSys pre) w
    ++ eventsOf (processRecord endpoint hideSys x)
         (worldAfter (rangeData endpoint hideSys pre) w)
    ++ eventsOf (rangeData endpoint hideSys post)
         (worldAfter (processRecord endpoint hideSys x)
            (worldAfter (rangeData endpoint hideSys pre) w)).
Proof.
  intros Hd. by rewrite eventsOf_processMetrics, Hd, eventsOf_app, eventsOf_cons.
Qed.

Lemma eventsOf_services hideSys x w :
  dispatched "services" hideSys x = true →
  eventsOf (processRecord "services" hideSys x) w
  = Log log_Debug [AStr "Processing metrics for %s"; AStr "services"]
    :: eventsOf (servicesBranch x) w.
Proof. intros Hd. unfold eventsOf at 1. by rewrite processRecord_services. Qed.

Lemma eventsOf_hosts hideSys x w :
  dispatched "hosts" hideSys x = true →
  eventsOf (processRecord "hosts" hideSys x) w
  = Log log_Debug [AStr "Processing metrics for %s"; AStr "hosts"]
    :: eventsOf (hostsBranch x) w.
Proof. intros Hd. unfold eventsOf at 1. by rewrite processRecord_hosts. Qed.

Lemma eventsOf_stacks hideSys x w :
  dispatched "stacks" hideSys x = true →
  eventsOf (processRecord "stacks" hideSys x) w
  = Log log_Debug [AStr "Processing metrics for %s"; AStr "stacks"]
    :: eventsOf (stacksBranch x) w.
Proof. intros Hd. unfold eventsOf at 1. by rewrite processRecord_stacks. Qed.

(** C7: for every dispatched service record of a batch, the observation
    offered to the exporter carries, as stack name, what [retrieveStackRef]
    returns for the record's [StackID]; when that is "unknown", the warning
    naming the service is logged and the observation follows it at once,
    with "unknown" as the stack name: the record is not skipped. *)
Theorem service_stack_name_resolution data hideSys x w :
  x ∈ Data_ data →
  dispatched "services" hideSys x = true →
  let stackName := retrieveStackRef (stackRef w) (StackID x) in
  let t := eventsOf (processMetrics data "services" hideSys) w in
  ServiceMetrics (Name x) stackName (State x) (HealthState x) (Scale x) ∈ t
  ∧ (stackName = "unknown" →
     ∃ before after,
       t = before
           ++ Log log_Warnf
                [AStr "Failed to obtain stack_name for %s from the API";
                 AStr (Name x)]
              :: ServiceMetrics (Name x) "unknown" (State x) (HealthState x)
                   (Scale x)
              :: after).
Proof.
  intros Hin Hd stackName t. split.
  - apply observations_subset. unfold t.
    rewrite eventsOf_processMetrics, observations_rangeData.
    exists x. repeat split; [done.. |]. unfold attempt. simpl.
    apply list_elem_of_singleton. done.
  - intros Hunknown.
    apply list_elem_of_split in Hin as (pre & post & Hsplit).
    unfold t. rewrite (eventsOf_batch_split _ _ _ pre x post) by done.
    rewrite eventsOf_services by done.
    unfold eventsOf at 2. rewrite servicesBranch_run. cbn [fst snd].
    rewrite stackRef_rangeData by done. fold stackName.
    rewrite Hunknown. change (String.eqb "unknown" "unknown") with true.
    cbn [app].
    exists (eventsOf (rangeData "services" hideSys pre) w
            ++ [Log log_Debug [AStr "Processing metrics for %s";
                               AStr "services"]]).
    eexists. rewrite <- (assoc_L (++)). reflexivity.
Qed.

(** C8: for every dispatched host record of a batch, the observation
    offered to the exporter is keyed by the record's name when that is
    non-empty and by its host name otherwise, and it is the only
    observation of the record. *)
Theorem host_display_name data hideSys x w :
  x ∈ Data_ data →
  dispatched "hosts" hideSys x = true →
  let t := eventsOf (processMetrics data "hosts" hideSys) w in
  (Name x ≠ "" → HostMetrics (Name x) (State x) (AgentState x) ∈ t)
  ∧ (Name x = "" → HostMetrics (HostName x) (State x) (AgentState x) ∈ t)
  ∧ ∀ w',
      observations (eventsOf (processRecord "hosts" hideSys x) w')
      = [HostMetrics (if String.eqb (Name x) "" then HostName x else Name x)
           (State x) (AgentState x)].
Proof.
  intros Hin Hd t.
  assert (HostMetrics (if String.eqb (Name x) "" then HostName x else Name x)
            (State x) (AgentState x) ∈ t) as Ht.
  { apply observations_subset. unfold t.
    rewrite eventsOf_processMetrics, observations_rangeData.
    exists x. repeat split; [done.. |]. unfold attempt. simpl.
    apply list_elem_of_singleton. by destruct (String.eqb (Name x) ""). }
  repeat split.
  - intros Hne%String.eqb_neq. by rewrite Hne in Ht.
  - intros Heq. by rewrite Heq in Ht.
  - intros w'. rewrite eventsOf_hosts by done.
    unfold eventsOf. rewrite hostsBranch_run. simpl.
    by destruct (String.eqb (Name x) ""), (setHostMetrics _ _ _ _).2.
Qed.

(** X15: whatever the exporter answers for a record, [processMetrics]
    returns nil and goes on with the records after it, from the state the
    record left. When the first setter call made for a dispatched record
    returns an error, the call is followed by exactly two error lines and
    nothing more is done for the record; the second line carries the name,
    state and further values of the record, for a host its [HostName]. *)
Theorem per_record_failure_isolation (endpoint : string) hideSys pre x post w :
  let w1 := worldAfter (rangeData endpoint hideSys pre) w in
  let w2 := worldAfter (processRecord endpoint hideSys x) w1 in
  let s := if String.eqb (Name x) "" then HostName x else Name x in
  let stackName := retrieveStackRef (stackRef w1) (StackID x) in
  let debug :=
    Log log_Debug [AStr "Processing metrics for %s"; AStr endpoint] in
  processMetrics (mkData (pre ++ x :: post)) endpoint hideSys w
  = (None,
     worldAfter (rangeData endpoint hideSys post) w2,
     eventsOf (rangeData endpoint hideSys pre) w
     ++ eventsOf (processRecord endpoint hideSys x) w1
     ++ eventsOf (rangeData endpoint hideSys post) w2)
  ∧ (dispatched endpoint hideSys x = true →
     (∀ err, endpoint = "hosts" →
        (setHostMetrics (exporter w1) s (State x) (AgentState x)).2 = Some err →
        eventsOf (processRecord endpoint hideSys x) w1
        = [debug;
           HostMetrics s (State x) (AgentState x);
           Log log_Errorf [AStr "Error processing host metrics: %s"; AErr err];
           Log log_Errorf [AStr "Attempt Failed to set %s, %s, [agent] %s ";
                           AStr (HostName x); AStr (State x);
                           AStr (AgentState x)]])
     ∧ (∀ err, endpoint = "stacks" →
        (setStackMetrics (exporter w1) (Name x) (State x) (HealthState x)
           (FormatBool (System x))).2 = Some err →
        eventsOf (processRecord endpoint hideSys x) w1
        = [debug;
           StackMetrics (Name x) (State x) (HealthState x)
             (FormatBool (System x));
           Log log_Errorf [AStr "Error processing stack metrics: %s"; AErr err];
           Log log_Errorf [AStr "Attempt Failed to set %s, %s, %s, %t";
                           AStr (Name x); AStr (State x);
                           AStr (HealthState x); ABool (System x)]])
     ∧ (∀ err, endpoint = "services" →
        (setServiceMetrics (exporter w1) (Name x) stackName (State x)
           (HealthState x) (Scale x)).2 = Some err →
        ∃ warning,
          eventsOf (processRecord endpoint hideSys x) w1
          = debug :: warning
            ++ [ServiceMetrics (Name x) stackName (State x) (HealthState x)
                  (Scale x);
                Log log_Errorf
                  [AStr "Error processing service metrics: %s"; AErr err];
                Log log_Errorf
                  [AStr "Attempt Failed to set %s, %s, %s, %s, %d";
                   AStr (Name x); AStr stackName; AStr (State x);
                   AStr (HealthState x); AInt (Scale x)]]
          ∧ observations warning = [])).
Proof.
  intros w1 w2 s stackName debug. split.
  - rewrite processMetrics_run. cbn [Data_].
    by rewrite worldAfter_app, eventsOf_app, worldAfter_cons, eventsOf_cons.
  - intros Hd. repeat split.
    + intros err -> Herr. rewrite eventsOf_hosts by done.
      unfold eventsOf. rewrite hostsBranch_run. cbn [fst snd].
      unfold s in *. destruct (String.eqb (Name x) ""); cbn [negb] in *;
        by rewrite Herr.
    + intros err -> Herr. rewrite eventsOf_stacks by done.
      unfold eventsOf. rewrite stacksBranch_run. cbn [fst snd].
      by rewrite Herr.
    + intros err -> Herr. rewrite eventsOf_services by done.
      unfold eventsOf. rewrite servicesBranch_run. cbn [fst snd].
      fold w1. fold stackName. rewrite Herr.
      destruct (String.eqb stackName "unknown"); eexists; split;
        reflexivity.
Qed.

(** C10: when the first call of [setServiceMetrics] for a dispatched
    service record returns no error, the setter is called a second time
    with the same arguments, on the state the first call left: the record's
    observation is offered twice. *)
Theorem service_success_emitted_twice hideSys pre x post w :
  let w1 := worldAfter (rangeData "services" hideSys pre) w in
  let stackName := retrieveStackRef (stackRef w1) (StackID x) in
  let call :=
    ServiceMetrics (Name x) stackName (State x) (HealthState x) (Scale x) in
  let r := setServiceMetrics (exporter w1) (Name x) stackName (State x)
             (HealthState x) (Scale x) in
  dispatched "services" hideSys x = true →
  r.2 = None →
  observations (eventsOf (processRecord "services" hideSys x) w1) = [call; call]
  ∧ exporter (worldAfter (processRecord "services" hideSys x) w1)
    = (setServiceMetrics r.1 (Name x) stackName (State x) (HealthState x)
         (Scale x)).1
  ∧ ∃ before after,
      eventsOf (processMetrics (mkData (pre ++ x :: post)) "services" hideSys) w
      = before ++ call :: call :: after.
Proof.
  intros w1 stackName call r Hd Hok. repeat split.
  - rewrite eventsOf_services by done.
    unfold eventsOf. rewrite servicesBranch_run. cbn [fst snd].
    fold stackName. fold r. rewrite Hok.
    by destruct (String.eqb stackName "unknown").
  - unfold worldAfter. rewrite processRecord_services by done. cbn [fst snd].
    unfold worldAfter. rewrite servicesBranch_run. cbn [fst snd exporter].
    fold stackName. fold r. by rewrite Hok.
  - rewrite (eventsOf_batch_split _ _ _ pre x post) by done.
    fold w1. rewrite eventsOf_services by done.
    unfold eventsOf at 2. rewrite servicesBranch_run. cbn [fst snd].
    fold stackName. fold r. rewrite Hok.
    destruct (String.eqb stackName "unknown"); cbn [app].
    + exists (eventsOf (rangeData "services" hideSys pre) w
              ++ [Log log_Debug [AStr "Processing metrics for %s";
                                 AStr "services"];
                  Log log_Warnf
                    [AStr "Failed to obtain stack_name for %s from the API";
                     AStr (Name x)]]).
      eexists. rewrite <- (assoc_L (++)). reflexivity.
    + exists (eventsOf (rangeData "services" hideSys pre) w
              ++ [Log log_Debug [AStr "Processing metrics for %s";
                                 AStr "services"]]).
      eexists. rewrite <- (assoc_L (++)). reflexivity.
Qed.

End MapperFacts.

(** Witnesses of the statements above, on the counting exporter. *)

Lemma category_fallback_witness :
  processRecord "hosts" false sampleUntyped sampleWorld = (tt, sampleWorld, []).
Proof.
  exact (proj1 (proj2 (proj2
           (@category_fallback nat countingExporter "hosts" false [] sampleUntyped
              [] sampleWorld eq_refl)) eq_refl eq_refl)).
Defined.

Lemma service_stack_name_resolution_witness :
  ServiceMetrics "web" "unknown" "active" "healthy" 2
  ∈ eventsOf (processMetrics (mkData [sampleService]) "services" false)
      sampleWorld.
Proof.
  refine (proj1 (@service_stack_name_resolution nat countingExporter
                   (mkData [sampleService]) false sampleService sampleWorld
                   _ eq_refl)).
  apply elem_of_cons. by left.
Defined.

Lemma host_display_name_witness :
  HostMetrics "host-1" "active" "active"
  ∈ eventsOf (processMetrics (mkData [sampleHost]) "hosts" false) sampleWorld.
Proof.
  refine (proj1 (proj2 (@host_display_name nat countingExporter
                          (mkData [sampleHost]) false sampleHost sampleWorld
                          _ eq_refl)) eq_refl).
  apply elem_of_cons. by left.
Defined.

Lemma service_success_emitted_twice_witness :
  observations (eventsOf (processRecord "services" false sampleService)
                  sampleWorld)
  = [ServiceMetrics "web" "unknown" "active" "healthy" 2;
     ServiceMetrics "web" "unknown" "active" "healthy" 2].
Proof.
  exact (proj1 (@service_success_emitted_twice nat countingExporter false []
                  sampleService [] sampleWorld eq_refl eq_refl)).
Defined.

(** ** The record fetcher *)

Section FetcherFacts.
Context `{Network}.

(** C1: a response whose status is not a success does not make the fetch
    fail. The status is logged as an error, the body is decoded all the
    same, and when the decoder reports no error [getJSON] returns nil and
    [gatherData] returns the decoded batch. *)
Theorem getJSON_ignores_status
    (rancherURL accessKey secretKey endpoint : string)
    (req : Request) (resp : Response) (decoded : option Data) :
  let url := setEndpoint rancherURL endpoint in
  http_NewRequest "GET" url = (Some req, None) →
  client_Do (SetBasicAuth req accessKey secretKey) = (Some resp, None) →
  GoStrings.Contains (Status resp) "200" = false →
  json_Decode (Body resp) (Some (mkData [])) = (decoded, None) →
  getJSON url accessKey secretKey (Some (mkData []))
  = ([CounterInc "main" "getJSON";
      Log log_Info [AStr "Scraping: "; AStr url];
      Log log_Error [AStr "Error returned from API: "; AStr (Status resp)];
      DurationObserve "main" "getJSON"; BodyClose],
     Returned (decoded, None))
  ∧ (gatherData rancherURL accessKey secretKey endpoint).2
    = Returned (decoded, None).
Proof.
  intros url Hreq Hdo Hstatus Hdecode.
  assert (getJSON url accessKey secretKey (Some (mkData []))
          = ([CounterInc "main" "getJSON";
              Log log_Info [AStr "Scraping: "; AStr url];
              Log log_Error
                [AStr "Error returned from API: "; AStr (Status resp)];
              DurationObserve "main" "getJSON"; BodyClose],
             Returned (decoded, None))) as Hget.
  { unfold getJSON. rewrite Hreq, Hdo, Hstatus, Hdecode. reflexivity. }
  split; [exact Hget |].
  unfold gatherData. fold url. by rewrite Hget.
Qed.

(** C2: when the HTTP client returns an error and no response, [getJSON]
    logs the error and then reads the status of the nil response: the call
    panics, and so does [gatherData]. *)
Theorem getJSON_network_error_panics
    (rancherURL accessKey secretKey endpoint : string)
    (req : Request) (err : error) :
  let url := setEndpoint rancherURL endpoint in
  http_NewRequest "GET" url = (Some req, None) →
  client_Do (SetBasicAuth req accessKey secretKey) = (None, Some err) →
  getJSON url accessKey secretKey (Some (mkData []))
  = ([CounterInc "main" "getJSON";
      Log log_Info [AStr "Scraping: "; AStr url];
      Log log_Error [AStr "Error Collecting JSON from API: "; AErr err]],
     Panicked nilDereference)
  ∧ (gatherData rancherURL accessKey secretKey endpoint).2
    = Panicked nilDereference.
Proof.
  intros url Hreq Hdo.
  assert (getJSON url accessKey secretKey (Some (mkData []))
          = ([CounterInc "main" "getJSON";
              Log log_Info [AStr "Scraping: "; AStr url];
              Log log_Error
                [AStr "Error Collecting JSON from API: "; AErr err]],
             Panicked nilDereference)) as Hget.
  { unfold getJSON. rewrite Hreq, Hdo. reflexivity. }
  split; [exact Hget |].
  unfold gatherData. fold url. by rewrite Hget.
Qed.

End FetcherFacts.

Lemma getJSON_ignores_status_witness :
  (@gatherData (fixedNetwork (Some notFound, None))
     "http://rancher.local/v1" "key" "secret" "hosts").2
  = Returned (Some (mkData []), None).
Proof.
  exact (proj2 (@getJSON_ignores_status (fixedNetwork (Some notFound, None))
                  "http://rancher.local/v1" "key" "secret" "hosts"
                  (mkRequest "GET" "http://rancher.local/v2-beta/hosts/" None)
                  notFound (Some (mkData []))
                  eq_refl eq_refl eq_refl eq_refl)).
Defined.

Lemma getJSON_network_error_panics_witness :
  (@gatherData (fixedNetwork (None, Some "connection refused"))
     "http://rancher.local/v1" "key" "secret" "hosts").2
  = Panicked nilDereference.
Proof.
  exact (proj2 (@getJSON_network_error_panics
                  (fixedNetwork (None, Some "connection refused"))
                  "http://rancher.local/v1" "key" "secret" "hosts"
                  (mkRequest "GET" "http://rancher.local/v2-beta/hosts/" None)
                  "connection refused" eq_refl eq_refl)).
Defined.

(** ** Further properties of the code *)

Section SanitiseFacts.
Import JS.

Lemma getSafeName_cons (c : N) (name : list N) :
  getSafeName (c :: name)
  = (if isSafeUnit c then c else 95%N) :: getSafeName name.
Proof. reflexivity. Qed.

(** X13: [getSafeName] keeps the length of the name and returns only letters,
    digits, underscores and colons. *)
Theorem getSafeName_safe (name : list N) :
  length (getSafeName name) = length name
  ∧ Forall (λ c, isSafeUnit c = true) (getSafeName name).
Proof.
  split; [apply length_fmap |].
  induction name as [|c name IH]; [constructor |].
  rewrite getSafeName_cons. constructor; [|exact IH].
  by destruct (isSafeUnit c) eqn:Hc.
Qed.

(** X14: sanitising twice is sanitising once, and the names [getSafeName]
    leaves as they are are exactly those made of safe units. *)
Theorem getSafeName_idempotent (name : list N) :
  getSafeName (getSafeName name) = getSafeName name
  ∧ (getSafeName name = name ↔ Forall (λ c, isSafeUnit c = true) name).
Proof.
  split.
  - induction name as [|c name IH]; [done |].
    rewrite !getSafeName_cons, IH. f_equal.
    by destruct (isSafeUnit c) eqn:Hc; [rewrite Hc |].
  - induction name as [|c name IH]; [by split; [constructor |] |].
    rewrite getSafeName_cons, Forall_cons. split.
    + intros [= Hc Hname]. split; [|by apply IH].
      destruct (isSafeUnit c) eqn:Hsafe; [done |]. by subst c.
    + intros [Hc Hname]. rewrite Hc. f_equal. by apply IH.
Qed.

Example getSafeName_my_service :
  getSafeName (units "my service!") = units "my_service_".
Proof. reflexivity. Qed.

End SanitiseFacts.

Section StackRefMore.
Implicit Types (m : gmap string string).

(** X2: what a retrieve after a store returns, for every pair of ids: "unknown"
    for the empty id, the stored name for the id just stored, and what the
    store held before for any other id. *)
Theorem storeStackRef_then_retrieve m (stackID stackName id : string) :
  retrieveStackRef (storeStackRef m stackID stackName) id
  = if decide (id = "") then "unknown"
    else if decide (id = stackID) then stackName
    else retrieveStackRef m id.
Proof.
  rewrite !retrieveStackRef_lookup. unfold storeStackRef.
  case_decide as Hid; [done |].
  case_decide as Heq.
  - subst. by rewrite lookup_insert_eq.
  - by rewrite lookup_insert_ne.
Qed.

End StackRefMore.

Section FetcherMore.
Context `{Network}.

(** X4: when [http.NewRequest] fails, [getJSON] logs the error and then sets
    the credentials on the nil request: the call panics before any request
    is sent. *)
Theorem getJSON_request_error_panics
    (url accessKey secretKey : string) (target : option Data) (err : error) :
  http_NewRequest "GET" url = (None, Some err) →
  getJSON url accessKey secretKey target
  = ([CounterInc "main" "getJSON";
      Log log_Info [AStr "Scraping: "; AStr url];
      Log log_Error [AStr "Error Collecting JSON from API: "; AErr err]],
     Panicked nilDereference).
Proof. intros Hreq. unfold getJSON. by rewrite Hreq. Qed.

(** X5: whenever the client hands back a response, what [getJSON] returns is
    what the decoder returns for the body: neither the error of
    [http.NewRequest], nor the error of the client, nor the status are ever
    returned. *)
Theorem getJSON_returns_decoder_result
    (url accessKey secretKey : string) (target : option Data)
    (req : Request) (resp : Response) (e1 e2 : option error) :
  http_NewRequest "GET" url = (Some req, e1) →
  client_Do (SetBasicAuth req accessKey secretKey) = (Some resp, e2) →
  (getJSON url accessKey secretKey target).2
  = Returned (json_Decode (Body resp) target).
Proof.
  intros Hreq Hdo. unfold getJSON. rewrite Hreq, Hdo.
  by destruct (json_Decode (Body resp) target) as [target' respFormatted].
Qed.

(** X6: when the decoder reports an error, [gatherData] logs it for the
    endpoint and returns a nil batch with the error: what the decoder had
    filled in is dropped. *)
Theorem gatherData_decode_error
    (rancherURL accessKey secretKey endpoint : string)
    (req : Request) (resp : Response) (e1 e2 : option error)
    (partial : option Data) (err : error) :
  http_NewRequest "GET" (setEndpoint rancherURL endpoint) = (Some req, e1) →
  client_Do (SetBasicAuth req accessKey secretKey) = (Some resp, e2) →
  json_Decode (Body resp) (Some (mkData [])) = (partial, Some err) →
  ∃ t,
    gatherData rancherURL accessKey secretKey endpoint
    = (t ++ [Log log_Error
               [AStr "Error getting JSON from endpoint "; AStr endpoint]],
       Returned (None, Some err)).
Proof.
  intros Hreq Hdo Hdecode. unfold gatherData, getJSON.
  rewrite Hreq, Hdo, Hdecode. eexists. reflexivity.
Qed.

(** X7: [getJSON] either returns, and then the duration has been observed and
    the body closed at the very end, or panics on a nil pointer, and then
    neither has happened. *)
Theorem getJSON_closes_body_or_panics
    (url accessKey secretKey : string) (target : option Data) :
  (∃ t r,
     getJSON url accessKey secretKey target
     = (t ++ [DurationObserve "main" "getJSON"; BodyClose], Returned r))
  ∨ (∃ t,
       getJSON url accessKey secretKey target = (t, Panicked nilDereference)
       ∧ (BodyClose ∉ t) ∧ (DurationObserve "main" "getJSON" ∉ t)).
Proof.
  unfold getJSON.
  destruct (http_NewRequest "GET" url) as [[req|] e1].
  - destruct (client_Do (SetBasicAuth req accessKey secretKey))
      as [[resp|] e2].
    + left.
      destruct (json_Decode (Body resp) target) as [target' respFormatted].
      eexists _, _. reflexivity.
    + right. eexists. split; [reflexivity |].
      destruct e1, e2; cbn [app];
        rewrite ?elem_of_cons, ?elem_of_nil; split; intros Hin;
        by repeat destruct Hin as [Hin|Hin].
  - right. eexists. split; [reflexivity |].
    destruct e1; cbn [app];
      rewrite ?elem_of_cons, ?elem_of_nil; split; intros Hin;
      by repeat destruct Hin as [Hin|Hin].
Qed.

End FetcherMore.

Section EndpointMore.
Import GoStrings GoStringsFacts.

#[local] Arguments String.append !_ _ : simpl nomatch.

Lemma append_prefix_by_length (x y b r : string) :
  x +:+ y = b +:+ r → (String.length x ≤ String.length b)%nat →
  ∃ z, b = x +:+ z.
Proof.
  revert b. induction x as [|c x IH]; intros b; simpl.
  - intros _ _. by exists b.
  - destruct b as [|d b]; simpl; [lia |].
    intros [= -> Hrest] Hlen.
    destruct (IH b Hrest ltac:(lia)) as [z ->]. by exists z.
Qed.

Lemma take_append_le (i : nat) (b r : string) :
  (i ≤ String.length b)%nat → take i (b +:+ r) = take i b.
Proof.
  revert b. induction i as [|i IH]; intros b; simpl.
  - by destruct b, r.
  - destruct b as [|c b]; simpl; [lia |]. intros Hlen. by rewrite IH by lia.
Qed.

Lemma drop_append_le (k : nat) (b r : string) :
  (k ≤ String.length b)%nat → drop k (b +:+ r) = drop k b +:+ r.
Proof.
  revert b. induction k as [|k IH]; intros b; simpl.
  - by destruct b.
  - destruct b as [|c b]; simpl; [lia |]. intros Hlen. by rewrite IH by lia.
Qed.

Lemma find_Some_bound (s substr : string) (i : nat) :
  find s substr = Some i → (i + String.length substr ≤ String.length s)%nat.
Proof.
  intros Hf. destruct (find_Some _ _ _ Hf) as [Hs Hlen].
  apply (f_equal String.length) in Hs.
  rewrite !length_append, Hlen in Hs. lia.
Qed.

(** The first instance of [substr] in [b] is still the first one when
    something is appended to [b]. *)
Lemma find_append (b r substr : string) (i : nat) :
  find b substr = Some i → find (b +:+ r) substr = Some i.
Proof.
  intros Hb. destruct (find_Some _ _ _ Hb) as [Hbs Hblen].
  pose proof (find_Some_bound _ _ _ Hb) as Hbound.
  assert (b +:+ r
          = take i b +:+ substr +:+ drop (i + String.length substr) b +:+ r)
    as Hocc by (rewrite <- !append_assoc; f_equal; by rewrite append_assoc).
  destruct (find (b +:+ r) substr) as [j|] eqn:Hj.
  - f_equal. apply Nat.le_antisymm.
    + pose proof (find_Some_least _ _ _ _ _ Hj Hocc). lia.
    + destruct (find_Some _ _ _ Hj) as [Hjs Hjlen].
      pose proof (find_Some_least _ _ _ _ _ Hj Hocc) as Hle.
      rewrite Hblen in Hle.
      destruct (append_prefix_by_length
                  (take j (b +:+ r) +:+ substr)
                  (drop (j + String.length substr) (b +:+ r)) b r)
        as [z Hz].
      * rewrite append_assoc. by rewrite <- Hjs.
      * rewrite length_append, Hjlen. lia.
      * rewrite append_assoc in Hz.
        pose proof (find_Some_least _ _ _ _ _ Hb Hz). lia.
  - exfalso. by eapply find_None.
Qed.

(** X3: when the base URL contains "v1", it is the base URL that is rewritten:
    the category and the slashes are appended to it unchanged. *)
Theorem setEndpoint_rewrites_base (rancherURL component : string) :
  Contains rancherURL "v1" = true →
  setEndpoint rancherURL component
  = Replace1 rancherURL "v1" "v2-beta" +:+ "/" +:+ component +:+ "/".
Proof.
  unfold Contains, setEndpoint, Replace1, Index.
  destruct (find rancherURL "v1") as [i|] eqn:Hf; [|done]. intros _.
  rewrite (find_append _ _ _ _ Hf).
  pose proof (find_Some_bound _ _ _ Hf) as Hbound.
  change (String.eqb "v1" "v2-beta") with false. cbv iota.
  replace (Z.of_nat i <? 0) with false by (symmetry; apply Z.ltb_ge; lia).
  rewrite Nat2Z.id, take_append_le, drop_append_le by lia.
  by rewrite !append_assoc.
Qed.

End EndpointMore.

Lemma setEndpoint_rewrites_base_witness :
  setEndpoint "http://rancher.local/v1" "v1hosts"
  = GoStrings.Replace1 "http://rancher.local/v1" "v1" "v2-beta"
    +:+ "/" +:+ "v1hosts" +:+ "/".
Proof.
  exact (setEndpoint_rewrites_base "http://rancher.local/v1" "v1hosts" eq_refl).
Defined.

Section MapperMore.
Context {E : Type} `{ExporterOps E}.
Implicit Types (w : World E) (x : DataItem) (l : list DataItem).

(** The store after one iteration for the stacks endpoint. *)
Lemma stackRef_processRecord_stacks hideSys x w :
  stackRef (worldAfter (processRecord "stacks" hideSys x) w)
  = if dispatched "stacks" hideSys x
    then storeStackRef (stackRef w) (ID x) (Name x)
    else stackRef w.
Proof.
  destruct (dispatched "stacks" hideSys x) eqn:Hd.
  - unfold worldAfter. rewrite processRecord_stacks by done. cbn [fst snd].
    unfold worldAfter. by rewrite stacksBranch_run.
  - unfold worldAfter. by rewrite processRecord_not_dispatched.
Qed.

Lemma stackRef_rangeData_stacks hideSys l w :
  stackRef (worldAfter (rangeData "stacks" hideSys l) w)
  = fold_left (λ m x, storeStackRef m (ID x) (Name x))
      (List.filter (dispatched "stacks" hideSys) l) (stackRef w).
Proof.
  revert w. induction l as [|x l IH]; intros w; [done |].
  rewrite worldAfter_cons, IH, stackRef_processRecord_stacks.
  cbn [List.filter]. by destruct (dispatched "stacks" hideSys x).
Qed.

Lemma fold_store_lookup_other l (m : gmap string string) (k : string) :
  (∀ z, z ∈ l → ID z ≠ k) →
  fold_left (λ m x, storeStackRef m (ID x) (Name x)) l m !! k = m !! k.
Proof.
  revert m. induction l as [|x l IH]; intros m Hl; [done |].
  cbn [fold_left]. rewrite IH.
  - unfold storeStackRef. apply lookup_insert_ne, Hl, elem_of_cons. by left.
  - intros z Hz. apply Hl, elem_of_cons. by right.
Qed.

Lemma fold_store_keeps_keys l (m : gmap string string) (k : string) :
  is_Some (m !! k) →
  is_Some (fold_left (λ m x, storeStackRef m (ID x) (Name x)) l m !! k).
Proof.
  revert m. induction l as [|x l IH]; intros m Hk; [done |].
  cbn [fold_left]. apply IH. unfold storeStackRef.
  destruct (decide (ID x = k)) as [->|Hne].
  - rewrite lookup_insert_eq. by eexists.
  - by rewrite lookup_insert_ne.
Qed.

Lemma elem_of_filter_dispatched (endpoint : string) hideSys l z :
  z ∈ List.filter (dispatched endpoint hideSys) l
  ↔ z ∈ l ∧ dispatched endpoint hideSys z = true.
Proof. rewrite !list_elem_of_In. apply List.filter_In. Qed.

(** X8: for an endpoint other than hosts, stacks and services, a batch changes
    neither the store nor the exporter and offers no observation; the
    result is nil all the same. *)
Theorem processMetrics_other_endpoint data (endpoint : string) hideSys w :
  endpoint ≠ "hosts" → endpoint ≠ "stacks" → endpoint ≠ "services" →
  resultOf (processMetrics data endpoint hideSys) w = None
  ∧ worldAfter (processMetrics data endpoint hideSys) w = w
  ∧ observations (eventsOf (processMetrics data endpoint hideSys) w) = [].
Proof.
  intros Hh Hst Hsv. repeat split.
  - unfold resultOf. by rewrite processMetrics_run.
  - rewrite worldAfter_processMetrics.
    induction (Data_ data) as [|x l IH]; [done |].
    rewrite worldAfter_cons.
    assert (worldAfter (processRecord endpoint hideSys x) w = w) as ->; [|done].
    unfold worldAfter. destruct (dispatched endpoint hideSys x) eqn:Hd.
    + by rewrite processRecord_other.
    + by rewrite processRecord_not_dispatched.
  - apply elem_of_nil_inv. intros c.
    rewrite eventsOf_processMetrics, observations_rangeData.
    intros (x & _ & _ & Hc). unfold attempt in Hc.
    apply String.eqb_neq in Hh, Hst, Hsv. rewrite Hh, Hst, Hsv in Hc.
    by apply elem_of_nil in Hc.
Qed.

(** X9: after a stacks batch the store is the store before with, in the order
    of the batch, the pair (ID, Name) of every dispatched record written
    into it, whatever [setStackMetrics] answered for the record. *)
Theorem stacks_batch_store data hideSys w :
  stackRef (worldAfter (processMetrics data "stacks" hideSys) w)
  = fold_left (λ m x, storeStackRef m (ID x) (Name x))
      (List.filter (dispatched "stacks" hideSys) (Data_ data)) (stackRef w).
Proof. rewrite worldAfter_processMetrics. apply stackRef_rangeData_stacks. Qed.

(** X10: stacks before services: a dispatched stack record with a non-empty id,
    not followed in its batch by a dispatched record with the same id, is
    what a later services batch resolves that id to; a dispatched service
    that refers to it is observed under the stack's name. *)
Theorem stacks_then_services_resolve
    (stacks services : Data) hideSys pre x post y w :
  Data_ stacks = pre ++ x :: post →
  dispatched "stacks" hideSys x = true →
  ID x ≠ "" →
  (∀ z, z ∈ post → dispatched "stacks" hideSys z = true → ID z ≠ ID x) →
  y ∈ Data_ services →
  dispatched "services" hideSys y = true →
  StackID y = ID x →
  let w1 := worldAfter (processMetrics stacks "stacks" hideSys) w in
  retrieveStackRef (stackRef w1) (ID x) = Name x
  ∧ ServiceMetrics (Name y) (Name x) (State y) (HealthState y) (Scale y)
    ∈ eventsOf (processMetrics services "services" hideSys) w1.
Proof.
  intros Hsplit Hdx Hid Hpost Hy Hdy Href w1.
  assert (retrieveStackRef (stackRef w1) (ID x) = Name x) as Hres.
  { unfold w1. rewrite worldAfter_processMetrics, stackRef_rangeData_stacks.
    rewrite Hsplit, List.filter_app. cbn [List.filter]. rewrite Hdx.
    rewrite List.fold_left_app. cbn [fold_left].
    rewrite retrieveStackRef_lookup, decide_False by done.
    rewrite fold_store_lookup_other.
    - unfold storeStackRef. by rewrite lookup_insert_eq.
    - intros z [Hz Hdz]%elem_of_filter_dispatched. by apply Hpost. }
  split; [exact Hres |].
  apply observations_subset.
  rewrite eventsOf_processMetrics, observations_rangeData.
  exists y. repeat split; [done.. |].
  unfold attempt. cbn. rewrite Href, Hres. apply list_elem_of_singleton. done.
Qed.

(** X11: the store is never pruned: whatever the endpoint and the batch, every
    id the store resolved before the batch it still resolves after it, and
    a batch for an endpoint other than stacks leaves the store as it is. *)
Theorem store_never_pruned data (endpoint : string) hideSys w (k : string) :
  (is_Some (stackRef w !! k) →
   is_Some (stackRef (worldAfter (processMetrics data endpoint hideSys) w)
            !! k))
  ∧ (endpoint ≠ "stacks" →
     stackRef (worldAfter (processMetrics data endpoint hideSys) w)
     = stackRef w).
Proof.
  rewrite worldAfter_processMetrics. split.
  - intros Hk. destruct (String.eqb_spec endpoint "stacks") as [->|Hne].
    + rewrite stackRef_rangeData_stacks. by apply fold_store_keeps_keys.
    + by rewrite stackRef_rangeData.
  - apply stackRef_rangeData.
Qed.

Lemma observations_cons_record (endpoint : string) hideSys x l w :
  observations (eventsOf (rangeData endpoint hideSys (x :: l)) w)
  = observations (eventsOf (processRecord endpoint hideSys x) w)
    ++ observations
         (eventsOf (rangeData endpoint hideSys l)
            (worldAfter (processRecord endpoint hideSys x) w)).
Proof. by rewrite eventsOf_cons, observations_app. Qed.

(** X12: one observation for each dispatched record of a hosts or stacks batch,
    and one or two for each dispatched record of a services batch. *)
Theorem observations_per_record data hideSys w :
  let sent (endpoint : string) :=
    length (observations (eventsOf (processMetrics data endpoint hideSys) w)) in
  let kept (endpoint : string) :=
    length (List.filter (dispatched endpoint hideSys) (Data_ data)) in
  sent "hosts" = kept "hosts"
  ∧ sent "stacks" = kept "stacks"
  ∧ (kept "services" ≤ sent "services" ≤ 2 * kept "services")%nat.
Proof.
  intros sent kept. subst sent kept. cbv beta.
  rewrite !eventsOf_processMetrics. repeat split.
  - revert w. induction (Data_ data) as [|x l IH]; intros w; [done |].
    rewrite observations_cons_record, length_app, IH. cbn [List.filter].
    destruct (dispatched "hosts" hideSys x) eqn:Hd.
    + rewrite eventsOf_hosts by done. unfold eventsOf at 1.
      rewrite hostsBranch_run. cbn.
      by destruct (setHostMetrics _ _ _ _).2.
    + unfold eventsOf at 1. by rewrite processRecord_not_dispatched.
  - revert w. induction (Data_ data) as [|x l IH]; intros w; [done |].
    rewrite observations_cons_record, length_app, IH. cbn [List.filter].
    destruct (dispatched "stacks" hideSys x) eqn:Hd.
    + rewrite eventsOf_stacks by done. unfold eventsOf at 1.
      rewrite stacksBranch_run. cbn.
      by destruct (setStackMetrics _ _ _ _ _).2.
    + unfold eventsOf at 1. by rewrite processRecord_not_dispatched.
  - revert w. induction (Data_ data) as [|x l IH]; intros w; [done |].
    rewrite observations_cons_record, length_app. cbn [List.filter].
    specialize (IH (worldAfter (processRecord "services" hideSys x) w)).
    destruct (dispatched "services" hideSys x) eqn:Hd.
    + rewrite eventsOf_services by done. unfold eventsOf at 1.
      rewrite servicesBranch_run. cbn [fst snd].
      destruct (String.eqb _ "unknown"),
        (setServiceMetrics _ _ _ _ _ _).2; cbn; lia.
    + unfold eventsOf at 1. rewrite processRecord_not_dispatched by done.
      cbn. lia.
  - revert w. induction (Data_ data) as [|x l IH]; intros w; [cbn; lia |].
    rewrite observations_cons_record, length_app. cbn [List.filter].
    specialize (IH (worldAfter (processRecord "services" hideSys x) w)).
    destruct (dispatched "services" hideSys x) eqn:Hd.
    + rewrite eventsOf_services by done. unfold eventsOf at 1.
      rewrite servicesBranch_run. cbn [fst snd].
      destruct (String.eqb _ "unknown"),
        (setServiceMetrics _ _ _ _ _ _).2; cbn in *; lia.
    + unfold eventsOf at 1. rewrite processRecord_not_dispatched by done.
      cbn in *. lia.
Qed.

End MapperMore.

(** Witnesses of the further properties. *)

Lemma retrieveStackRef_any_order_witness :
  retrieveStackRef_range [("b", "y"); ("a", "x")] "a"
  = retrieveStackRef (<["a" := "x"]> (<["b" := "y"]> ∅)) "a".
Proof.
  apply retrieveStackRef_any_order.
  vm_compute. first [reflexivity | apply perm_swap].
Defined.

Lemma getJSON_request_error_panics_witness :
  @getJSON rejectingNetwork "::" "key" "secret" None
  = ([CounterInc "main" "getJSON";
      Log log_Info [AStr "Scraping: "; AStr "::"];
      Log log_Error
        [AStr "Error Collecting JSON from API: "; AErr "invalid URL"]],
     Panicked nilDereference).
Proof.
  exact (@getJSON_request_error_panics rejectingNetwork "::" "key" "secret"
           None "invalid URL" eq_refl).
Defined.

Lemma getJSON_returns_decoder_result_witness :
  (@getJSON (fixedNetwork (Some notFound, Some "redirect refused"))
     "http://rancher.local/v2-beta/hosts/" "key" "secret" None).2
  = Returned (Some (mkData []), None).
Proof.
  exact (@getJSON_returns_decoder_result
           (fixedNetwork (Some notFound, Some "redirect refused"))
           "http://rancher.local/v2-beta/hosts/" "key" "secret" None
           (mkRequest "GET" "http://rancher.local/v2-beta/hosts/" None)
           notFound None (Some "redirect refused") eq_refl eq_refl).
Defined.

Lemma gatherData_decode_error_witness :
  ∃ t,
    @gatherData malformedNetwork "http://rancher.local/v1" "key" "secret"
      "stacks"
    = (t ++ [Log log_Error
               [AStr "Error getting JSON from endpoint "; AStr "stacks"]],
       Returned (None, Some "invalid character")).
Proof.
  exact (@gatherData_decode_error malformedNetwork "http://rancher.local/v1"
           "key" "secret" "stacks"
           (mkRequest "GET" "http://rancher.local/v2-beta/stacks/" None)
           (mkResponse "200 OK" "<html>") None None (Some (mkData []))
           "invalid character" eq_refl eq_refl eq_refl).
Defined.

Lemma processMetrics_other_endpoint_witness :
  worldAfter (processMetrics (mkData [sampleHost; sampleService]) "projects"
                false) sampleWorld
  = sampleWorld.
Proof.
  refine (proj1 (proj2 (@processMetrics_other_endpoint nat countingExporter
                          (mkData [sampleHost; sampleService]) "projects"
                          false sampleWorld _ _ _))); discriminate.
Defined.

Lemma stacks_then_services_resolve_witness :
  ServiceMetrics "web" "frontend" "active" "healthy" 2
  ∈ eventsOf (processMetrics (mkData [sampleService]) "services" false)
      (worldAfter (processMetrics (mkData [sampleStack]) "stacks" false)
         sampleWorld).
Proof.
  refine (proj2 (@stacks_then_services_resolve nat countingExporter
                   (mkData [sampleStack]) (mkData [sampleService]) false
                   [] sampleStack [] sampleService sampleWorld
                   eq_refl eq_refl _ _ _ eq_refl eq_refl)).
  - discriminate.
  - intros z Hz. by apply elem_of_nil in Hz.
  - apply elem_of_cons. by left.
Defined.

(** ** Where a setter error is not logged with the record *)

Section FailureLogging.
Context {E : Type} `{ExporterOps E}.
Implicit Types (w : World E) (x : DataItem).

(** C9: the code departs from the claim in two places. For a host the
    line that reports a failed attempt carries [HostName], not the name
    the setter was called with: for a host that has a name, the attempted
    name is not logged, and the logged field is empty when the host name
    is. For a service whose first call succeeded, the error of the second
    call is discarded: no error line is logged for the record. *)
Theorem setter_error_not_logged_with_record hideSys x w :
  (dispatched "hosts" hideSys x = true →
   Name x ≠ "" →
   ∀ err,
     (setHostMetrics (exporter w) (Name x) (State x) (AgentState x)).2
     = Some err →
     eventsOf (processRecord "hosts" hideSys x) w
     = [Log log_Debug [AStr "Processing metrics for %s"; AStr "hosts"];
        HostMetrics (Name x) (State x) (AgentState x);
        Log log_Errorf [AStr "Error processing host metrics: %s"; AErr err];
        Log log_Errorf [AStr "Attempt Failed to set %s, %s, [agent] %s ";
                        AStr (HostName x); AStr (State x);
                        AStr (AgentState x)]])
  ∧ (dispatched "services" hideSys x = true →
     let stackName := retrieveStackRef (stackRef w) (StackID x) in
     let r := setServiceMetrics (exporter w) (Name x) stackName (State x)
                (HealthState x) (Scale x) in
     r.2 = None →
     ∀ err,
       (setServiceMetrics r.1 (Name x) stackName (State x) (HealthState x)
          (Scale x)).2 = Some err →
       ∀ args,
         Log log_Errorf args ∉ eventsOf (processRecord "services" hideSys x) w).
Proof.
  split.
  - intros Hd Hname%String.eqb_neq err Herr.
    rewrite eventsOf_hosts by done.
    unfold eventsOf. rewrite hostsBranch_run. cbn [fst snd].
    rewrite Hname. cbn [negb]. by rewrite Herr.
  - intros Hd stackName r Hok err _ args.
    rewrite eventsOf_services by done.
    unfold eventsOf. rewrite servicesBranch_run. cbn [fst snd].
    fold stackName. fold r. rewrite Hok.
    destruct (String.eqb stackName "unknown"); cbn [app];
      rewrite !elem_of_cons, elem_of_nil; intros Hin;
      by repeat destruct Hin as [Hin|Hin].
Qed.

End FailureLogging.

Lemma setter_error_not_logged_with_record_witness :
  eventsOf (@processRecord nat cappedExporter "hosts" false namedHost)
    (mkWorld ∅ 1%nat)
  = [Log log_Debug [AStr "Processing metrics for %s"; AStr "hosts"];
     HostMetrics "web-1" "active" "active";
     Log log_Errorf
       [AStr "Error processing host metrics: %s"; AErr "registry full"];
     Log log_Errorf [AStr "Attempt Failed to set %s, %s, [agent] %s ";
                     AStr ""; AStr "active"; AStr "active"]]
  ∧ ∀ args,
      Log log_Errorf args
      ∉ eventsOf (@processRecord nat cappedExporter "services" false
                    sampleService) (mkWorld ∅ 0%nat).
Proof.
  split.
  - refine (proj1 (@setter_error_not_logged_with_record nat cappedExporter
                     false namedHost (mkWorld ∅ 1%nat))
              eq_refl _ "registry full" eq_refl).
    discriminate.
  - exact (proj2 (@setter_error_not_logged_with_record nat cappedExporter
                    false sampleService (mkWorld ∅ 0%nat))
             eq_refl eq_refl "registry full" eq_refl).
Defined.
